(** * The library catalogue of [library.py]

    A shallow embedding of the [Library] class: the record store behind the
    SQLAlchemy session ([add_book], [remove_book], [get_all_books],
    [check_book_exist], [clean]), the authors encoding ([_form_author],
    [_form_authors]) and the XML import ([books_from_xml]); of the
    [Application] class that drives it from the command line
    ([get_input_value], [read_book], [pretty_print_books],
    [execute_command]); and of the helpers with which [test_library.py]
    builds an XML tree from books.

    What lies outside [library.py] is modelled as follows.
    - The [books] table is the list of its rows in rowid order, which is the
      order [session.query(Book).all()] scans them in.  A new row gets the
      rowid [max + 1] (1 in an empty table) and so goes to the end.  Every
      operation of [Library] commits before it returns, hence the committed
      table is the whole state.
    - Python's [str] is a [string]; a value that is a [str] or [None] is an
      [option string].  The separator [','] is one character.
    - Python's [float] is an arbitrary type [float]: the store keeps and
      returns prices, it never computes with them.  The builtins [int] and
      [float] applied to a [str], [bool] and [str] applied to a [float], and
      [ElementTree.XML], are parameters.
    - Exceptions are values of [exn]; an operation returns its outcome
      together with the table it leaves behind.
    - The console is the list of lines still to be read and the list of
      pieces written; [input] on an empty list raises [EOFError]. *)

From Stdlib Require Import ZArith QArith String Ascii List Lia.
From stdpp Require Import base option list strings pretty gmap fin_maps.

Local Open Scope Z_scope.

(** ** Exceptions *)

Inductive exn : Type :=
  | BookNotFoundError
  | DuplicatedBookTitleError
  | WrongXmlPathError
  | KeyError (key : string)
  | ValueError
  | TypeError
  | IntegrityError
  | OSError
  | ParseError.

Definition result (A : Type) : Type := (exn + A)%type.

Definition raise {A : Type} (e : exn) : result A := inl e.

#[global] Instance result_ret : MRet result := λ A x, inr x.
#[global] Instance result_bind : MBind result :=
  λ A B f m, match m with inl e => inl e | inr x => f x end.

(** ** [str.join] and [str.split] *)

Module Str.

(** [c in s] *)
Fixpoint contains (c : ascii) (s : string) : bool :=
  match s with
  | EmptyString => false
  | String a s' => if Ascii.eqb a c then true else contains c s'
  end.

(** [sep.join(l)] *)
Fixpoint join (sep : string) (l : list string) : string :=
  match l with
  | [] => ""
  | x :: l' =>
      match l' with
      | [] => x
      | _ :: _ => x +:+ sep +:+ join sep l'
      end
  end.

(** [s.split(sep)] for a separator of one character: the pieces between the
    occurrences of [sep], so one piece more than there are occurrences. *)
Fixpoint split (sep : ascii) (s : string) : list string :=
  match s with
  | EmptyString => [""]
  | String a s' =>
      if Ascii.eqb a sep then "" :: split sep s'
      else match split sep s' with
           | w :: ws => String a w :: ws
           | [] => [String a ""]
           end
  end.

End Str.

(** ** The [books] table *)

Module Book.
Section Row.
Context {float : Type}.

(** A row of [class Book(Base)].  The five columns after [id] are
    [nullable=False]; [language] and [cover] may be NULL. *)
Record t : Type := mk {
  id : Z;
  category : string;
  title : string;
  author : string;
  year : Z;
  price : float;
  language : option string;
  cover : option string
}.

End Row.
Arguments t : clear implicits.
End Book.

(** The dictionaries that [get_all_books] builds. *)
Module Entry.
Section Dict.
Context {float : Type}.

Record t : Type := mk {
  title : string;
  year : Z;
  category : string;
  authors : list string;
  price : float;
  language : option string;
  cover : option string
}.

End Dict.
Arguments t : clear implicits.
End Entry.

(** ** What the import reads *)

(** An [xml.etree.ElementTree.Element]: [text] is [None] for an element
    without character data before its first child. *)
Module Element.

#[warnings="-register-all"]
Inductive t : Type := mk {
  tag : string;
  attrib : gmap string string;
  text : option string;
  children : list t
}.

End Element.

(** What a [record] dictionary of [books_from_xml] holds under a key: the
    text of an element or the value of an attribute, or the list built from
    the [author] elements. *)
Inductive value : Type :=
  | VText (t : option string)
  | VList (l : list (option string)).

(** The outcome of [open(path_to_xml)] followed by [read()]. *)
Inductive open_result : Type :=
  | FileNotFoundError
  | OtherOSError
  | Opened (content : string).

(** ** The console of [Application] *)

(** The lines [input] has yet to read, and what [input] and [print] have
    written, piece by piece: a prompt of [input], or a line of [print]
    without the newline that ends it. *)
Record console : Type := Console {
  stdin : list string;
  stdout : list string
}.

(** What a method of [Application] can raise: [EOFError] from [input] at the
    end of the input, or what [Library] raised. *)
Inductive cli_exn : Type :=
  | EOFError
  | Raised (e : exn).

(** A computation at the console.  It is [None] when a loop of the model
    has used up its bound of iterations, which no loop here does. *)
Definition IO (A : Type) : Type :=
  console → option ((cli_exn + A) * console).

#[global] Instance io_ret : MRet IO := λ A x c, Some (inr x, c).
#[global] Instance io_bind : MBind IO :=
  λ A B f m c,
    match m c with
    | None => None
    | Some (inl e, c') => Some (inl e, c')
    | Some (inr x, c') => f x c'
    end.

(** [print(line)] *)
Definition print (line : string) : IO unit :=
  λ c, Some (inr (), Console (stdin c) (stdout c ++ [line])).

(** A [return_type] of [get_input_value]: how an f-string shows it, what it
    makes of a [str] ([None] where it raises [ValueError]), and the truth
    value of what it makes. *)
Record return_type (A : Type) : Type := ReturnType {
  type_repr : string;
  construct : string → option A;
  truth : A → bool
}.
Arguments ReturnType {A} _ _ _.
Arguments type_repr {A} _.
Arguments construct {A} _ _.
Arguments truth {A} _ _.

(** The truth value of a [str] or [None], and how an f-string shows it. *)
Definition truthy (x : option string) : bool :=
  match x with
  | Some s => bool_decide (s ≠ "")
  | None => false
  end.

Definition format (x : option string) : string := default "None" x.

(** The namespace that [parse_args] returns. *)
Module Args.

Record t : Type := mk {
  add : bool;
  remove : option string;
  print : bool;
  xml : option string
}.

End Args.

(** ** Instances of the parameters, for the examples *)

Module Demo.

Definition digit (a : ascii) : option Z :=
  let n := Z.of_N (N_of_ascii a) in
  if (48 <=? n) && (n <=? 57) then Some (n - 48) else None.

Fixpoint digits (acc : Z) (s : string) : option Z :=
  match s with
  | EmptyString => Some acc
  | String a s' =>
      match digit a with
      | Some d => digits (10 * acc + d) s'
      | None => None
      end
  end.

(** Reads a string of decimal digits, and nothing else. *)
Definition parse_int (s : string) : option Z :=
  match s with
  | EmptyString => None
  | _ => digits 0 s
  end.

(** Prices in the examples are rationals, read from whole numbers. *)
Definition parse_float (s : string) : option Q :=
  inject_Z <$> parse_int s.

Definition book (tag_attrib : gmap string string)
    (children : list Element.t) : Element.t :=
  Element.mk "book" tag_attrib None children.

Definition field (tag : string) (attrib : gmap string string)
    (text : string) : Element.t :=
  Element.mk tag attrib (Some text) [].

Definition emma : Element.t :=
  book ∅ [field "title" ∅ "Emma"; field "category" ∅ "novel";
          field "year" ∅ "1815"; field "price" ∅ "7";
          field "author" ∅ "Austen"].

Definition dune : Element.t :=
  book ∅ [field "title" ∅ "Dune"; field "category" ∅ "fiction";
          field "year" ∅ "1965"; field "price" ∅ "12";
          field "author" ∅ "Herbert"].

(** [dune] with a year that [int] rejects. *)
Definition dune_roman : Element.t :=
  book ∅ [field "title" ∅ "Dune"; field "category" ∅ "fiction";
          field "year" ∅ "MCMLXV"; field "price" ∅ "12";
          field "author" ∅ "Herbert"].



(** Two [author] children around two [title] children, under a book element
    with attributes of the names [authors] and [title]. *)
Definition two_authors : Element.t :=
  book {[ "authors" := "X"; "title" := "A" ]}
    [field "title" ∅ "B"; field "author" ∅ "Herbert";
     field "title" ∅ "C"; field "author" ∅ "Anderson"].

Definition two_root : Element.t :=
  Element.mk "books" ∅ None [emma; dune_roman].

(** An [ElementTree.XML] that knows two documents. *)
Definition XML (content : string) : option Element.t :=
  if decide (content = "dune") then
    Some (Element.mk "books" ∅ None [dune])
  else if decide (content = "two") then Some two_root
  else None.

(** A file system with two readable files and a directory. *)
Definition fs (path : string) : open_result :=
  if decide (path = "dune.xml") then Opened "dune"
  else if decide (path = "two.xml") then Opened "two"
  else if decide (path = "/root") then OtherOSError
  else FileNotFoundError.

Definition stored_emma : Book.t Q :=
  Book.mk 1 "novel" "Emma" "Austen" 1815 7%Q None None.

Definition stored_dune : Book.t Q :=
  Book.mk 2 "fiction" "Dune" "Herbert" 1965 12.5%Q None None.

(** The truth value of a price, and a way to show it. *)
Definition float_bool (x : Q) : bool := negb (Qeq_bool x 0).

Definition str_float (x : Q) : string :=
  if decide (Qden x = 1%positive) then pretty (Qnum x)
  else pretty (Qnum x) +:+ "/" +:+ pretty (Zpos (Qden x)).

(** A book element without a category. *)
Definition no_category : Element.t :=
  book ∅ [field "title" ∅ "Dune"; field "year" ∅ "1965";
          field "price" ∅ "12"; field "author" ∅ "Herbert"].

(** [dune] with a second [author] element that has no text. *)
Definition silent_author : Element.t :=
  book ∅ [field "title" ∅ "Dune"; field "category" ∅ "fiction";
          field "year" ∅ "1965"; field "price" ∅ "12";
          field "author" ∅ "Herbert"; Element.mk "author" ∅ None []].


(** A second book of the title Dune, as [add_book] would not store it. *)
Definition other_dune : Book.t Q :=
  Book.mk 3 "fiction" "Dune" "Other" 1984 9%Q None None.

(** The lines of a book as they are asked for, and a line after them. *)
Definition lines_of_dune : list string :=
  ["Dune"; "fiction"; "Herbert"; "Anderson"; ""; "1965"; "12"; "";
   "paperback"; "next"].

End Demo.

(** ** The class [Library] *)

Section Library.
Context {float : Type}.

(** [int(s)] and [float(s)] on a [str]: the number, or [None] where Python
    raises [ValueError]. *)
Variable parse_int : string → option Z.
Variable parse_float : string → option float.

(** [ElementTree.XML(text)]: the root element, or [None] where it raises
    [ParseError]. *)
Variable XML : string → option Element.t.

Abbreviation book := (Book.t float).
Abbreviation store := (list (Book.t float)).
Abbreviation entry := (Entry.t float).

(** [session.query(Book).all()] *)
Definition query_all (s : store) : list book := s.

(** [session.query(Book).filter_by(title=name)]: [title = name], which is
    [title IS NULL] when [name] is [None]; the column is never NULL. *)
Definition filter_by_title (name : option string) (s : store) : list book :=
  filter (λ b, Some (Book.title b) = name) s.

(** [.first()] *)
Definition first (rows : list book) : option book := head rows.

(** The rowid SQLite gives to the next inserted row. *)
Definition next_id (s : store) : Z :=
  match Book.id <$> s with
  | [] => 1
  | i :: ids => 1 + foldr Z.max i ids
  end.

(** [session.delete(book); session.commit()]: [DELETE ... WHERE id = ?]. *)
Definition session_delete (b : book) (s : store) : store :=
  filter (λ x, Book.id x ≠ Book.id b) s.

(** [','.join(authors)]; raises [TypeError] on an item that is [None]. *)
Definition _form_author (authors : list (option string)) : result string :=
  match mapM (λ a : option string, a) authors with
  | Some names => mret (Str.join "," names)
  | None => raise TypeError
  end.

(** [author.split(',')] *)
Definition _form_authors (author : string) : list string :=
  Str.split "," author.

Definition check_book_exist (title : option string) (s : store) : bool :=
  match first (filter_by_title title s) with
  | Some _ => true
  | None => false
  end.

(** The commit of a row with NULL in [category] or [title] violates
    [nullable=False], raises and leaves the table as it was. *)
Definition add_book (category title : option string)
    (authors : list (option string)) (year : Z) (price : float)
    (language cover : option string) (s : store) : result Z * store :=
  if check_book_exist title s then (raise DuplicatedBookTitleError, s)
  else
    match _form_author authors with
    | inl e => (inl e, s)
    | inr author =>
        match category, title with
        | Some category, Some title =>
            let new_book :=
              Book.mk (next_id s) category title author year price
                language cover in
            (mret (Book.id new_book), s ++ [new_book])
        | _, _ => (raise IntegrityError, s)
        end
    end.

Definition get_all_books (s : store) : list entry :=
  (λ b : book,
     Entry.mk (Book.title b) (Book.year b) (Book.category b)
       (_form_authors (Book.author b)) (Book.price b) (Book.language b)
       (Book.cover b)) <$> query_all s.

Definition remove_book (name : string) (s : store) : result unit * store :=
  match first (filter_by_title (Some name) s) with
  | Some book_to_remove => (mret (), session_delete book_to_remove s)
  | None => (raise BookNotFoundError, s)
  end.

Definition clean (s : store) : store :=
  foldl (λ table b, session_delete b table) s (query_all s).

(** The primary key [id] and, as [add_book] maintains it, the titles are
    without repetition. *)
Definition store_ok (s : store) : Prop :=
  NoDup (Book.id <$> s) ∧ NoDup (Book.title <$> s).

(** The dictionary [get_all_books] returns for a book added with these
    arguments. *)
Definition entry_of (category title : string) (authors : list string)
    (year : Z) (price : float) (language cover : option string) : entry :=
  Entry.mk title year category authors price language cover.

(** *** [books_from_xml] *)

(** [record.update(attrib)]; on an empty [attrib] it changes nothing, which
    is all the guard [if attrib:] in the source skips. *)
Definition update (attrib : gmap string string)
    (record : gmap string value) : gmap string value :=
  ((λ v, VText (Some v)) <$> attrib) ∪ record.

(** The body of [for subchild in child], in its two steps: the branch on
    the tag, then the merge of the attributes. *)
Definition subchild_text (state : gmap string value * list (option string))
    (subchild : Element.t) : gmap string value * list (option string) :=
  let '(record, authors) := state in
  if decide (Element.tag subchild = "author")
  then (record, authors ++ [Element.text subchild])
  else (<[Element.tag subchild := VText (Element.text subchild)]> record,
        authors).

Definition subchild_step (state : gmap string value * list (option string))
    (subchild : Element.t) : gmap string value * list (option string) :=
  let '(record, authors) := subchild_text state subchild in
  (update (Element.attrib subchild) record, authors).

(** The body of [for child in root]: the record appended for [child]. *)
Definition record_of (child : Element.t) : gmap string value :=
  let '(record, authors) :=
    foldl subchild_step (update (Element.attrib child) ∅, [])
      (Element.children child) in
  <["authors" := VList authors]> record.

Definition records_of (root : Element.t) : list (gmap string value) :=
  record_of <$> Element.children root.

(** [record[key]] *)
Definition getitem (record : gmap string value) (key : string)
    : result value :=
  match record !! key with
  | Some v => mret v
  | None => raise (KeyError key)
  end.

(** [record.get(key, None)] *)
Definition get (record : gmap string value) (key : string) : value :=
  default (VText None) (record !! key).

(** [int(v)] and [float(v)]: [TypeError] on [None] and on a list. *)
Definition py_int (v : value) : result Z :=
  match v with
  | VText (Some s) =>
      match parse_int s with Some n => mret n | None => raise ValueError end
  | _ => raise TypeError
  end.

Definition py_float (v : value) : result float :=
  match v with
  | VText (Some s) =>
      match parse_float s with Some x => mret x | None => raise ValueError end
  | _ => raise TypeError
  end.

(** A record of [record_of] holds a list under [authors] and texts under
    every other key ([record_of_shape] below), so the [TypeError] of these
    two is never raised by [books_from_xml]. *)
Definition as_text (v : value) : result (option string) :=
  match v with VText t => mret t | VList _ => raise TypeError end.

Definition as_list (v : value) : result (list (option string)) :=
  match v with VList l => mret l | VText _ => raise TypeError end.

(** The body of [for record in records]: the arguments are evaluated from
    left to right, then [add_book] is called. *)
Definition add_record (record : gmap string value) (s : store)
    : result Z * store :=
  let args :=
    category ← getitem record "category" ≫= as_text;
    title ← getitem record "title" ≫= as_text;
    authors ← getitem record "authors" ≫= as_list;
    year ← getitem record "year" ≫= py_int;
    price ← getitem record "price" ≫= py_float;
    language ← as_text (get record "language");
    cover ← as_text (get record "cover");
    mret (category, title, authors, year, price, language, cover) in
  match args with
  | inl e => (inl e, s)
  | inr (category, title, authors, year, price, language, cover) =>
      add_book category title authors year price language cover s
  end.

Fixpoint add_records (records : list (gmap string value)) (s : store)
    : result unit * store :=
  match records with
  | [] => (mret (), s)
  | record :: records' =>
      match add_record record s with
      | (inl e, s') => (inl e, s')
      | (inr _, s') => add_records records' s'
      end
  end.

Definition books_from_xml (fs : string → open_result) (path_to_xml : string)
    (s : store) : result unit * store :=
  match fs path_to_xml with
  | FileNotFoundError => (raise WrongXmlPathError, s)
  | OtherOSError => (raise OSError, s)
  | Opened content =>
      match XML content with
      | None => (raise ParseError, s)
      | Some root => add_records (records_of root) s
      end
  end.

(** *** Notions the statements about the import use *)

(** The texts of the [author] children, in document order. *)
Definition author_texts (children : list Element.t) : list (option string) :=
  Element.text <$> filter (λ c, Element.tag c = "author") children.

(** [subchild] assigns to the key [f] of the record: by its tag, unless that
    is [author], or by an attribute. *)
Definition writes (f : string) (subchild : Element.t) : Prop :=
  (Element.tag subchild = f ∧ f ≠ "author") ∨
  is_Some (Element.attrib subchild !! f).

#[global] Instance writes_dec f subchild : Decision (writes f subchild).
Proof. unfold writes. apply _. Defined.

(** The row [b] holds what [record] says. *)
Definition created_by (record : gmap string value) (b : book) : Prop :=
  record !! "category" = Some (VText (Some (Book.category b))) ∧
  record !! "title" = Some (VText (Some (Book.title b))) ∧
  (∃ authors, record !! "authors" = Some (VList authors) ∧
              _form_author authors = mret (Book.author b)) ∧
  (∃ year, record !! "year" = Some year ∧ py_int year = mret (Book.year b)) ∧
  (∃ price, record !! "price" = Some price ∧
            py_float price = mret (Book.price b)) ∧
  get record "language" = VText (Book.language b) ∧
  get record "cover" = VText (Book.cover b).


(** ** The class [Application] *)

(** [bool(x)] and [str(x)] for a [float]. *)
Variable float_bool : float → bool.
Variable str_float : float → string.

(** The three types [get_input_value] is called with. *)
Definition str_type : return_type string :=
  ReturnType "<class 'str'>" Some (λ s, bool_decide (s ≠ "")).

Definition int_type : return_type Z :=
  ReturnType "<class 'int'>" parse_int (λ n, bool_decide (n ≠ 0)).

Definition float_type : return_type float :=
  ReturnType "<class 'float'>" parse_float float_bool.

(** The two loops of [get_input_value], line by line: [inner] tells whether
    the line is read by the inner loop, which asks again for a required
    value, or by the outer one.  An empty line for a required value goes on
    in the inner loop; a line the type rejects goes back to the outer loop;
    any other line ends both, and [inp or None] is returned. *)
Fixpoint get_input_loop {A : Type} (type : return_type A)
    (value_name : string) (required inner : bool) (lines out : list string)
    : (cli_exn + option A) * console :=
  let out :=
    out ++ [if inner
            then "The " +:+ value_name +:+ " is required, please enter again:"
            else "Please, enter the " +:+ value_name +:+ ":"] in
  match lines with
  | [] => (inl EOFError, Console [] out)
  | inp :: lines' =>
      if required && bool_decide (inp = "")
      then get_input_loop type value_name required true lines' out
      else
        match construct type inp with
        | Some value =>
            (inr (if truth type value then Some value else None),
             Console lines' out)
        | None =>
            get_input_loop type value_name required false lines'
              (out ++ ["Bad input for " +:+ value_name +:+
                       ", must be of type " +:+ type_repr type +:+ "!"])
        end
  end.

Definition get_input_value {A : Type} (type : return_type A)
    (value_name : string) (required : bool) : IO (option A) :=
  λ c, Some (get_input_loop type value_name required false (stdin c)
               (stdout c)).

(** The loop [while self.library.check_book_exist(title)] of [read_book]. *)
Fixpoint title_loop (bound : nat) (s : store) (title : option string)
    : IO (option string) :=
  if check_book_exist title s then
    match bound with
    | O => λ _, None
    | S bound' =>
        _ ← print ("Book with title " +:+ format title +:+
                   " already exist, please enter different title.");
        title ← get_input_value str_type "title" true;
        title_loop bound' s title
    end
  else mret title.

(** The loop [while author] of [read_book]. *)
Fixpoint authors_loop (bound : nat) (authors : list (option string))
    (author : option string) : IO (list (option string)) :=
  if truthy author then
    match bound with
    | O => λ _, None
    | S bound' =>
        author ← get_input_value str_type
                   ("author " +:+ pretty (length authors + 1)%nat) false;
        authors_loop bound'
          (if truthy author then authors ++ [author] else authors) author
    end
  else mret authors.

(** A loop that reads at least a line in each iteration, bounded by the
    number of lines left. *)
Definition bounded {A : Type} (loop : nat → IO A) : IO A :=
  λ c, loop (S (length (stdin c))) c.

(** [read_book] up to its call of [add_book]: the arguments of the call. *)
Definition read_book_input (s : store)
    : IO (option string * option string * list (option string) * option Z *
          option float * option string * option string) :=
  title ← get_input_value str_type "title" true;
  title ← bounded (λ bound, title_loop bound s title);
  category ← get_input_value str_type "category" true;
  author ← get_input_value str_type
             ("author " +:+ pretty (length (@nil (option string)) + 1)%nat)
             true;
  authors ← bounded (λ bound, authors_loop bound [author] author);
  year ← get_input_value int_type "year" true;
  price ← get_input_value float_type "price" true;
  language ← get_input_value str_type "language" false;
  cover ← get_input_value str_type "cover" false;
  mret (category, title, authors, year, price, language, cover).

(** [add_book] as [read_book] calls it, where [year] and [price] can be
    [None]: the commit of NULL in one of these [nullable=False] columns
    raises as it does for [category] and [title], after the check of the
    title and the join of the authors. *)
Definition add_book_input (category title : option string)
    (authors : list (option string)) (year : option Z) (price : option float)
    (language cover : option string) (s : store) : result Z * store :=
  match year, price with
  | Some year, Some price =>
      add_book category title authors year price language cover s
  | _, _ =>
      if check_book_exist title s then (raise DuplicatedBookTitleError, s)
      else
        match _form_author authors with
        | inl e => (inl e, s)
        | inr _ => (raise IntegrityError, s)
        end
  end.

Definition read_book (c : console) (s : store)
    : option ((cli_exn + unit) * console * store) :=
  match read_book_input s c with
  | None => None
  | Some (inl e, c') => Some (inl e, c', s)
  | Some (inr (category, title, authors, year, price, language, cover), c') =>
      match add_book_input category title authors year price language cover s
      with
      | (inl e, s') => Some (inl (Raised e), c', s')
      | (inr _, s') => Some (inr (), c', s')
      end
  end.

(** What [pretty_print_books] prints for one book. *)
Definition pretty_print_book (book : entry) : list string :=
  [Entry.title book +:+ " (" +:+ pretty (Entry.year book) +:+ ")";
   String "009" "Category: " +:+ Entry.category book;
   String "009" "Author(s): " +:+ Str.join ", " (Entry.authors book);
   String "009" "Price: " +:+ str_float (Entry.price book)] ++
  (if truthy (Entry.language book)
   then [String "009" "Language: " +:+ format (Entry.language book)]
   else []) ++
  (if truthy (Entry.cover book)
   then [String "009" "Cover: " +:+ format (Entry.cover book)]
   else []) ++
  [String "010" ""].

Definition pretty_print_books (books : list entry) : IO unit :=
  λ c, Some (inr (), Console (stdin c)
                       (stdout c ++ concat (pretty_print_book <$> books))).

(** [execute_command] on the namespace [args]; [isfile] is
    [os.path.isfile] and [fs] what [open] finds. *)
Definition execute_command (args : Args.t) (isfile : string → bool)
    (fs : string → open_result) (c : console) (s : store)
    : option ((cli_exn + unit) * console * store) :=
  if Args.add args then read_book c s
  else if truthy (Args.remove args) then
    match remove_book (default "" (Args.remove args)) s with
    | (inl BookNotFoundError, s') =>
        Some (inr (),
              Console (stdin c)
                (stdout c ++ ["Book with title " +:+
                              format (Args.remove args) +:+
                              " was not found in the system."]), s')
    | (inl e, s') => Some (inl (Raised e), c, s')
    | (inr _, s') => Some (inr (), c, s')
    end
  else if Args.print args then
    match get_all_books s with
    | [] =>
        Some (inr (),
              Console (stdin c)
                (stdout c ++ ["No books to print in the system."]), s)
    | books =>
        match pretty_print_books books c with
        | Some (inr _, c') => Some (inr (), c', s)
        | Some (inl e, c') => Some (inl e, c', s)
        | None => None
        end
    end
  else if truthy (Args.xml args) then
    if isfile (default "" (Args.xml args)) then
      match books_from_xml fs (default "" (Args.xml args)) s with
      | (inl e, s') => Some (inl (Raised e), c, s')
      | (inr _, s') => Some (inr (), c, s')
      end
    else
      Some (inr (),
            Console (stdin c)
              (stdout c ++ [format (Args.xml args) +:+
                            " is not a file, provide valid path to file."]),
            s)
  else Some (inr (), c, s).

(** ** The helpers of [test_library.py] *)




(** *** Notions the further statements use *)

(** [s.count(c)] for a character [c]. *)
Fixpoint occurrences (c : ascii) (s : string) : nat :=
  match s with
  | EmptyString => 0%nat
  | String a s' =>
      if Ascii.eqb a c then S (occurrences c s') else occurrences c s'
  end.

(** What a computation at the console guarantees: [EOFError] is all it
    raises, and what it returns satisfies [P]. *)
Definition io_post {A : Type} (m : IO A) (P : A → Prop) : Prop :=
  ∀ c r c',
    m c = Some (r, c') →
    match r with inl e => e = EOFError | inr x => P x end.


(** [type] and [required] make [get_input_value] read on after [line]. *)
Definition skipped {A : Type} (type : return_type A) (required : bool)
    (line : string) : Prop :=
  (required = true ∧ line = "") ∨ construct type line = None.






(** A call of a method of [Library] that may change the table. *)
Inductive call : Type :=
  | call_add_book (category title : option string)
      (authors : list (option string)) (year : Z) (price : float)
      (language cover : option string)
  | call_remove_book (name : string)
  | call_clean
  | call_books_from_xml (fs : string → open_result) (path_to_xml : string).

(** The table a call leaves, whether it returns or raises. *)
Definition run_call (c : call) (s : store) : store :=
  match c with
  | call_add_book category title authors year price language cover =>
      (add_book category title authors year price language cover s).2
  | call_remove_book name => (remove_book name s).2
  | call_clean => clean s
  | call_books_from_xml fs path_to_xml => (books_from_xml fs path_to_xml s).2
  end.

Definition run (calls : list call) (s : store) : store :=
  foldl (λ table c, run_call c table) s calls.



(** ** Facts about [str.join] and [str.split] *)




(** ** Facts about the table *)

Lemma filter_by_title_elem name (s : store) (b : book) :
  b ∈ filter_by_title name s ↔ b ∈ s ∧ Some (Book.title b) = name.
Proof. unfold filter_by_title. rewrite list_elem_of_filter. tauto. Qed.

Lemma check_book_exist_true title (s : store) :
  check_book_exist (Some title) s = true ↔ ∃ b, b ∈ s ∧ Book.title b = title.
Proof.
  unfold check_book_exist, first.
  destruct (filter_by_title (Some title) s) as [|b l] eqn:E; simpl.
  - split; [done|]. intros (b & Hb & Ht).
    assert (b ∈ filter_by_title (Some title) s) as Hin
      by (apply filter_by_title_elem; split; [done | by rewrite Ht]).
    rewrite E in Hin. by apply elem_of_nil in Hin.
  - split; [|done]. intros _. exists b.
    assert (b ∈ filter_by_title (Some title) s) as Hin by (rewrite E; left).
    apply filter_by_title_elem in Hin as [? ?]. split; [done | congruence].
Qed.

Lemma check_book_exist_false title (s : store) :
  check_book_exist (Some title) s = false ↔
  ∀ b, b ∈ s → Book.title b ≠ title.
Proof.
  rewrite <- not_true_iff_false, check_book_exist_true. split.
  - intros H b Hb Ht. apply H. by exists b.
  - intros H (b & Hb & Ht). by apply (H b).
Qed.

(** No row has a NULL title, so [filter_by(title=None)] finds nothing. *)
Lemma check_book_exist_None (s : store) : check_book_exist None s = false.
Proof.
  unfold check_book_exist, first, filter_by_title.
  induction s as [|b s IH]; [done|].
  rewrite filter_cons. by destruct (decide _).
Qed.

(** [first] picks the earliest row with the title. *)
Lemma first_filter_by_title name (s : store) (b : book) :
  first (filter_by_title (Some name) s) = Some b →
  ∃ pre post, s = pre ++ b :: post ∧ Book.title b = name ∧
              ∀ x, x ∈ pre → Book.title x ≠ name.
Proof.
  unfold first, filter_by_title.
  induction s as [|x s IH]; [done|].
  rewrite filter_cons. destruct (decide _) as [Hx|Hx]; simpl.
  - intros [= ->]. exists [], s. split_and!; [done | congruence |].
    intros y Hy. by apply elem_of_nil in Hy.
  - intros (pre & post & -> & Ht & Hpre)%IH.
    exists (x :: pre), post. split_and!; [done | done |].
    intros y [->|Hy]%elem_of_cons; [congruence | by apply Hpre].
Qed.

Lemma first_filter_by_title_None name (s : store) :
  first (filter_by_title (Some name) s) = None ↔
  ∀ b, b ∈ s → Book.title b ≠ name.
Proof.
  rewrite <- check_book_exist_false. unfold check_book_exist.
  by destruct (first _).
Qed.

Lemma foldr_max_bound (i : Z) (ids : list Z) (x : Z) :
  x ∈ i :: ids → x ≤ foldr Z.max i ids.
Proof.
  induction ids as [|j ids IH]; simpl.
  - intros ->%list_elem_of_singleton. lia.
  - intros [->|[->|Hx]%elem_of_cons]%elem_of_cons.
    + assert (i ≤ foldr Z.max i ids) by (apply IH; left). lia.
    + lia.
    + assert (x ≤ foldr Z.max i ids) by (apply IH; by right). lia.
Qed.

(** The id of a new row is above every id in the table. *)
Lemma next_id_fresh (s : store) (b : book) :
  b ∈ s → Book.id b < next_id s.
Proof.
  intros Hb. unfold next_id.
  assert (Book.id b ∈ Book.id <$> s) as Hin by (by apply list_elem_of_fmap_2).
  destruct (Book.id <$> s) as [|i ids]; [by apply elem_of_nil in Hin|].
  apply foldr_max_bound in Hin. lia.
Qed.

Lemma filter_all {A} (P : A → Prop) `{!∀ x, Decision (P x)} (l : list A) :
  Forall P l → filter P l = l.
Proof.
  induction 1 as [|x l Hx _ IH]; [done|].
  rewrite filter_cons, decide_True by done. by rewrite IH.
Qed.

Lemma filter_none {A} (P : A → Prop) `{!∀ x, Decision (P x)} (l : list A) :
  Forall (λ x, ¬ P x) l → filter P l = [].
Proof.
  induction 1 as [|x l Hx _ IH]; [done|].
  by rewrite filter_cons, decide_False.
Qed.

(** Under the primary key, [session_delete] removes the row it is given and
    keeps the others in their order. *)
Lemma session_delete_split (pre post : store) (b : book) :
  NoDup (Book.id <$> (pre ++ b :: post)) →
  session_delete b (pre ++ b :: post) = pre ++ post.
Proof.
  intros Hnd. unfold session_delete.
  rewrite fmap_app, fmap_cons in Hnd.
  apply NoDup_app in Hnd as (_ & Hpre & [Hb _]%NoDup_cons).
  rewrite filter_app, filter_cons. rewrite decide_False by naive_solver.
  f_equal.
  - apply filter_all. apply Forall_forall. intros x Hx Heq.
    apply (Hpre (Book.id x)); [by apply list_elem_of_fmap_2|].
    rewrite Heq. left.
  - apply filter_all. apply Forall_forall. intros x Hx Heq.
    apply Hb. rewrite <- Heq. by apply list_elem_of_fmap_2.
Qed.

Lemma _form_author_strs (authors : list string) :
  _form_author (Some <$> authors) = mret (Str.join "," authors).
Proof. unfold _form_author. by rewrite mapM_fmap_Some by done. Qed.

(** What [add_book] does with arguments of the annotated types. *)
Lemma add_book_typed category title authors year price language cover
    (s : store) :
  add_book (Some category) (Some title) (Some <$> authors) year price
    language cover s =
  if check_book_exist (Some title) s then (raise DuplicatedBookTitleError, s)
  else (mret (next_id s),
        s ++ [Book.mk (next_id s) category title (Str.join "," authors) year
                price language cover]).
Proof. unfold add_book. by rewrite _form_author_strs. Qed.

Lemma get_all_books_app (s1 s2 : store) :
  get_all_books (s1 ++ s2) = get_all_books s1 ++ get_all_books s2.
Proof. unfold get_all_books, query_all. apply fmap_app. Qed.


(** ** The table invariant *)

Lemma store_ok_nil : store_ok [].
Proof. split; constructor. Qed.

Lemma store_ok_add_book category title authors year price language cover
    (s : store) :
  store_ok s →
  store_ok (add_book category title authors year price language cover s).2.
Proof.
  intros [Hid Ht]. unfold add_book.
  destruct (check_book_exist title s) eqn:Hex; [done|].
  destruct (_form_author authors) as [e|author]; [done|].
  destruct category as [c|], title as [t|]; try done. simpl.
  split; rewrite fmap_app; simpl.
  - apply NoDup_app. split_and!; [done | | apply NoDup_singleton].
    intros i (b & -> & Hb)%list_elem_of_fmap Heq%list_elem_of_singleton.
    apply next_id_fresh in Hb. lia.
  - apply NoDup_app. split_and!; [done | | apply NoDup_singleton].
    intros x (b & -> & Hb)%list_elem_of_fmap Heq%list_elem_of_singleton.
    by apply (proj1 (check_book_exist_false t s) Hex b).
Qed.

Lemma store_ok_session_delete (b : book) (s : store) :
  store_ok s → store_ok (session_delete b s).
Proof.
  intros [Hid Ht]. unfold session_delete.
  split; (eapply sublist_NoDup; [done | apply fmap_sublist, sublist_filter]).
Qed.

Lemma store_ok_remove_book name (s : store) :
  store_ok s → store_ok (remove_book name s).2.
Proof.
  intros Hok. unfold remove_book.
  destruct (first _); [by apply store_ok_session_delete | done].
Qed.

(** ** [add_book] *)




(** ** [remove_book] *)

(** C7. [remove_book] of a title that no row has raises [BookNotFoundError]
    and leaves the table, hence what [get_all_books] returns, as it was. *)
Theorem remove_book_not_found name (s : store) :
  (∀ b, b ∈ s → Book.title b ≠ name) →
  remove_book name s = (raise BookNotFoundError, s) ∧
  get_all_books (remove_book name s).2 = get_all_books s ∧
  length (get_all_books (remove_book name s).2) = length (get_all_books s).
Proof.
  intros Hnone%first_filter_by_title_None.
  unfold remove_book. by rewrite Hnone.
Qed.

(** C8. On a table that satisfies its invariant, [remove_book] of a stored
    title succeeds and takes out the one row with that title; the other rows
    stay, unchanged and in their order. *)
Theorem remove_book_present name (s : store) :
  store_ok s →
  (∃ b, b ∈ s ∧ Book.title b = name) →
  ∃ pre b post,
    s = pre ++ b :: post ∧
    Book.title b = name ∧
    remove_book name s = (mret (), pre ++ post) ∧
    S (length (pre ++ post)) = length s ∧
    ∀ x, x ∈ pre ++ post ↔ x ∈ s ∧ Book.title x ≠ name.
Proof.
  intros [Hid Htitle] Hex%check_book_exist_true.
  unfold check_book_exist in Hex. unfold remove_book.
  destruct (first (filter_by_title (Some name) s)) as [b|] eqn:Hfirst;
    [|done].
  apply first_filter_by_title in Hfirst as (pre & post & -> & Ht & Hpre).
  exists pre, b, post. split_and!; [done | done | | |].
  - by rewrite session_delete_split.
  - rewrite !length_app. simpl. lia.
  - rewrite fmap_app, fmap_cons in Htitle.
    apply NoDup_app in Htitle as (_ & Hdisj & [Hpost _]%NoDup_cons).
    intros x. rewrite !elem_of_app, elem_of_cons. split.
    + intros [Hx|Hx].
      * split; [by left | by apply Hpre].
      * split; [by right; right|]. intros Heq. apply Hpost.
        rewrite Ht, <- Heq. by apply list_elem_of_fmap_2.
    + intros [[Hx|[->|Hx]] Hne]; [by left | done | by right].
Qed.

(** ** [clean] *)

Lemma foldl_session_delete (rows table : store) :
  foldl (λ table b, session_delete b table) table rows =
  filter (λ x, Book.id x ∉ Book.id <$> rows) table.
Proof.
  revert table. induction rows as [|b rows IH]; intros table; simpl.
  - symmetry. apply filter_all, Forall_forall. intros x _ Hx.
    by apply elem_of_nil in Hx.
  - rewrite IH. unfold session_delete. rewrite list_filter_filter.
    apply list_filter_iff. intros x. rewrite elem_of_cons. tauto.
Qed.

(** C9. [clean] deletes every row, whatever the table: [get_all_books] is
    empty afterwards.  It has no error outcome, does nothing to an empty
    table, and a second [clean] changes nothing. *)
Theorem clean_empties (s : store) :
  clean s = [] ∧
  get_all_books (clean s) = [] ∧
  clean [] = ([] : store) ∧
  clean (clean s) = clean s.
Proof.
  assert (∀ t : store, clean t = []) as Hclean.
  { intros t. unfold clean, query_all. rewrite foldl_session_delete.
    apply filter_none, Forall_forall. intros x Hx Hnot.
    by apply Hnot, list_elem_of_fmap_2. }
  by rewrite !Hclean.
Qed.

(** ** The records of the import *)

Lemma lookup_update attrib (record : gmap string value) f :
  update attrib record !! f =
  match attrib !! f with
  | Some v => Some (VText (Some v))
  | None => record !! f
  end.
Proof.
  unfold update. rewrite lookup_union, lookup_fmap.
  by destruct (attrib !! f), (record !! f).
Qed.

Lemma subchild_text_lookup record authors sc f :
  (subchild_text (record, authors) sc).1 !! f =
  if decide (Element.tag sc = f ∧ f ≠ "author")
  then Some (VText (Element.text sc))
  else record !! f.
Proof.
  unfold subchild_text.
  destruct (decide (Element.tag sc = "author")) as [Ha|Ha]; simpl.
  - rewrite decide_False; [done|]. intros [<- ?]. done.
  - destruct (decide (Element.tag sc = f ∧ f ≠ "author")) as [[<- _]|Hn].
    + by rewrite lookup_insert_eq.
    + rewrite lookup_insert_ne; [done|]. intros <-. by apply Hn.
Qed.

Lemma subchild_step_lookup record authors sc f :
  (subchild_step (record, authors) sc).1 !! f =
  match Element.attrib sc !! f with
  | Some v => Some (VText (Some v))
  | None => (subchild_text (record, authors) sc).1 !! f
  end.
Proof.
  unfold subchild_step.
  destruct (subchild_text (record, authors) sc) as [r a]. simpl.
  apply lookup_update.
Qed.

Lemma subchild_step_authors record authors sc :
  (subchild_step (record, authors) sc).2 = authors ++ author_texts [sc].
Proof.
  unfold subchild_step, subchild_text, author_texts.
  rewrite filter_cons, filter_nil.
  destruct (decide (Element.tag sc = "author")); simpl; [done|].
  by rewrite app_nil_r.
Qed.

Lemma subchild_step_untouched record authors sc f :
  ¬ writes f sc →
  (subchild_step (record, authors) sc).1 !! f = record !! f.
Proof.
  unfold writes. intros Hw.
  rewrite subchild_step_lookup, subchild_text_lookup.
  destruct (Element.attrib sc !! f) eqn:Hattr.
  - exfalso. apply Hw. right. by eexists.
  - rewrite decide_False; [done|]. intros ?. apply Hw. by left.
Qed.

Lemma author_texts_app l1 l2 :
  author_texts (l1 ++ l2) = author_texts l1 ++ author_texts l2.
Proof. unfold author_texts. by rewrite filter_app, fmap_app. Qed.

Lemma foldl_step_authors state l :
  (foldl subchild_step state l).2 = state.2 ++ author_texts l.
Proof.
  revert state. induction l as [|sc l IH]; intros [record authors]; simpl.
  - unfold author_texts. by rewrite filter_nil, app_nil_r.
  - rewrite IH, subchild_step_authors.
    change (sc :: l) with ([sc] ++ l).
    by rewrite author_texts_app, app_assoc.
Qed.

Lemma foldl_step_untouched state l f :
  Forall (λ c, ¬ writes f c) l →
  (foldl subchild_step state l).1 !! f = state.1 !! f.
Proof.
  intros Hall. revert state.
  induction Hall as [|sc l Hsc _ IH]; intros [record authors]; [done|].
  simpl. rewrite IH.
  destruct (subchild_step (record, authors) sc) as [r a] eqn:E.
  simpl. change r with ((r, a).1). rewrite <- E.
  by apply subchild_step_untouched.
Qed.

(** The last child that assigns to a key decides what the loop leaves
    there. *)
Lemma foldl_step_last state pre sc post f :
  Forall (λ c, ¬ writes f c) post →
  (foldl subchild_step state (pre ++ sc :: post)).1 !! f =
  (subchild_step (foldl subchild_step state pre) sc).1 !! f.
Proof.
  intros Hpost. rewrite foldl_app. simpl.
  by rewrite foldl_step_untouched.
Qed.

Lemma record_of_lookup_ne child f :
  f ≠ "authors" →
  record_of child !! f =
  (foldl subchild_step (update (Element.attrib child) ∅, [])
     (Element.children child)).1 !! f.
Proof.
  intros Hf. unfold record_of.
  destruct (foldl _ _ _) as [record authors]. simpl.
  by rewrite lookup_insert_ne.
Qed.

Lemma record_of_authors child :
  record_of child !! "authors" =
  Some (VList (author_texts (Element.children child))).
Proof.
  unfold record_of.
  pose proof (foldl_step_authors (update (Element.attrib child) ∅, [])
                (Element.children child)) as Ha.
  destruct (foldl _ _ _) as [record authors]. simpl in *.
  by rewrite lookup_insert_eq, Ha.
Qed.

(** Under [authors] a record holds a list, under any other key a text. *)
Lemma record_of_shape child f v :
  record_of child !! f = Some v →
  if decide (f = "authors") then ∃ l, v = VList l else ∃ t, v = VText t.
Proof.
  destruct (decide (f = "authors")) as [->|Hf].
  - rewrite record_of_authors. intros [= <-]. by eexists.
  - rewrite record_of_lookup_ne by done.
    assert (∀ l state,
              (∀ k w, state.1 !! k = Some w → ∃ t, w = VText t) →
              ∀ k w, (foldl subchild_step state l).1 !! k = Some w →
                     ∃ t, w = VText t) as Hinv.
    { induction l as [|sc l IH]; intros [record authors] Hst; [done|].
      simpl. apply IH.
      destruct (subchild_step (record, authors) sc) as [r a] eqn:E.
      intros k w. change ((r, a).1) with r. 
      replace r with ((subchild_step (record, authors) sc).1)
        by (by rewrite E).
      rewrite subchild_step_lookup, subchild_text_lookup.
      destruct (Element.attrib sc !! k); [intros [= <-]; by eexists|].
      destruct (decide _); [intros [= <-]; by eexists|].
      apply Hst. }
    apply Hinv. simpl. intros k w. rewrite lookup_update, lookup_empty.
    destruct (Element.attrib child !! k); [intros [= <-]; by eexists|done].
Qed.

(** C6. The record of a book element holds under [authors] the texts of its
    [author] children in document order, whatever an attribute or a child
    named [authors] put there before.  A child with another tag assigns its
    text to the key of its tag, over whatever the key held; so the record
    ends with the text of the last such child, where no attribute of that
    child or of a later one bears the name. *)
Theorem record_of_authors_and_texts child :
  record_of child !! "authors" =
    Some (VList (author_texts (Element.children child))) ∧
  (∀ record authors sc,
     Element.tag sc ≠ "author" →
     (subchild_text (record, authors) sc).1 !! Element.tag sc =
       Some (VText (Element.text sc)) ∧
     (subchild_text (record, authors) sc).2 = authors) ∧
  (∀ pre sc post,
     Element.children child = pre ++ sc :: post →
     Element.tag sc ≠ "author" →
     Element.tag sc ≠ "authors" →
     Element.attrib sc !! Element.tag sc = None →
     Forall (λ c, ¬ writes (Element.tag sc) c) post →
     record_of child !! Element.tag sc = Some (VText (Element.text sc))).
Proof.
  split_and!.
  - apply record_of_authors.
  - intros record authors sc Ha. split.
    + rewrite subchild_text_lookup. by rewrite decide_True.
    + unfold subchild_text. by rewrite decide_False.
  - intros pre sc post Hch Ha Has Hattr Hpost.
    rewrite record_of_lookup_ne, Hch by done.
    rewrite foldl_step_last by done.
    destruct (foldl subchild_step _ pre) as [record authors].
    rewrite subchild_step_lookup, Hattr, subchild_text_lookup.
    by rewrite decide_True.
Qed.


(** ** [books_from_xml] *)

Lemma record_of_text child f :
  f ≠ "authors" →
  is_Some (record_of child !! f) →
  ∃ t, record_of child !! f = Some (VText t).
Proof.
  intros Hf [v Hv]. pose proof (record_of_shape child f v Hv) as Hs.
  rewrite decide_False in Hs by done. destruct Hs as [t ->]. by exists t.
Qed.

Lemma record_of_get child f :
  f ≠ "authors" → ∃ t, get (record_of child) f = VText t.
Proof.
  intros Hf. unfold get.
  destruct (record_of child !! f) as [v|] eqn:Hv; simpl; [|by eexists].
  destruct (record_of_text child f Hf) as [t Ht]; [by eexists|].
  exists t. congruence.
Qed.


(** A record that [add_record] accepts is stored as one new row. *)
Lemma add_record_ok record (s s' : store) new_id :
  add_record record s = (inr new_id, s') →
  ∃ b, s' = s ++ [b] ∧ created_by record b ∧ new_id = Book.id b.
Proof.
  unfold add_record, getitem, created_by.
  destruct (record !! "category") as [[category|]|]; [|done..].
  destruct (record !! "title") as [[title|]|]; [|done..].
  destruct (record !! "authors") as [[|authors]|]; [done| |done].
  destruct (record !! "year") as [year|]; [|done]. simpl.
  destruct (py_int year) as [|n] eqn:Hint; [done|].
  destruct (record !! "price") as [price|]; [|done]. simpl.
  destruct (py_float price) as [|x] eqn:Hfloat; [done|]. simpl.
  destruct (get record "language") as [language|]; [|done].
  destruct (get record "cover") as [cover|]; [|done]. simpl.
  unfold add_book.
  destruct (check_book_exist title s); [done|].
  destruct (_form_author authors) as [|author] eqn:Hauthor; [done|].
  destruct category as [category|], title as [title|]; try done.
  intros [= <- <-]. eexists. split; [done|]. simpl.
  split_and!; try done; eauto.
Qed.

Lemma add_record_error record (s s' : store) e :
  add_record record s = (inl e, s') → s' = s.
Proof.
  unfold add_record.
  destruct (_ ≫= _) as [|[[[[[[category title] authors] year] price] language]
                           cover]]; [congruence|].
  unfold add_book, raise, mret, result_ret.
  destruct (check_book_exist title s); [by intros [= _ <-]|].
  destruct (_form_author authors); [by intros [= _ <-]|].
  destruct category, title; simpl; intros ?; by simplify_eq.
Qed.

Lemma add_records_app pre rest (s : store) :
  add_records (pre ++ rest) s =
  match add_records pre s with
  | (inl e, s') => (inl e, s')
  | (inr _, s') => add_records rest s'
  end.
Proof.
  revert s. induction pre as [|record pre IH]; intros s; simpl; [done|].
  destruct (add_record record s) as [[e|new_id] s']; [done | apply IH].
Qed.


Lemma store_ok_add_records records (s : store) :
  store_ok s → store_ok (add_records records s).2.
Proof.
  revert s. induction records as [|record records IH]; intros s Hok; [done|].
  simpl.
  assert (store_ok (add_record record s).2) as Hok'.
  { unfold add_record.
    destruct (_ ≫= _) as [|[[[[[[category title] authors] year] price]
                             language] cover]]; [done|].
    by apply store_ok_add_book. }
  destruct (add_record record s) as [[e|new_id] s1]; [done | by apply IH].
Qed.

Lemma store_ok_books_from_xml fs path (s : store) :
  store_ok s → store_ok (books_from_xml fs path s).2.
Proof.
  intros Hok. unfold books_from_xml.
  destruct (fs path) as [| |content]; [done | done |].
  destruct (XML content) as [root|]; [by apply store_ok_add_records | done].
Qed.



(** ** More about [_form_author] and [_form_authors] *)

Lemma split_cons_inv sep s : ∃ w ws, Str.split sep s = w :: ws.
Proof.
  destruct s as [|a s]; simpl; [by eexists _, _|].
  destruct (Ascii.eqb a sep); [by eexists _, _|].
  destruct (Str.split sep s); by eexists _, _.
Qed.

Lemma join_cons_char sep a w ws :
  Str.join sep (String a w :: ws) = String a (Str.join sep (w :: ws)).
Proof. by destruct ws. Qed.

Lemma join_split sep s :
  Str.join (String sep "") (Str.split sep s) = s.
Proof.
  induction s as [|a s IH]; [done|]. simpl.
  destruct (split_cons_inv sep s) as (w & ws & Hs). rewrite Hs in *.
  destruct (Ascii.eqb a sep) eqn:Ha.
  - apply Ascii.eqb_eq in Ha as ->.
    change (Str.join (String sep "") ("" :: w :: ws))
      with (String sep (Str.join (String sep "") (w :: ws))).
    by rewrite IH.
  - by rewrite join_cons_char, IH.
Qed.

Lemma split_pieces sep s :
  Forall (λ a, Str.contains sep a = false) (Str.split sep s).
Proof.
  induction s as [|a s IH]; simpl; [by repeat constructor|].
  destruct (Ascii.eqb a sep) eqn:Ha; [by constructor|].
  destruct (Str.split sep s) as [|w ws]; [by repeat constructor; simpl; rewrite Ha|].
  apply Forall_cons in IH as [Hw Hws]. constructor; [|done].
  simpl. by rewrite Ha.
Qed.

Lemma length_split sep s :
  length (Str.split sep s) = S (occurrences sep s).
Proof.
  induction s as [|a s IH]; [done|]. simpl.
  destruct (Ascii.eqb a sep); simpl; [by rewrite IH|].
  by destruct (Str.split sep s).
Qed.

Lemma occurrences_app c s1 s2 :
  occurrences c (s1 +:+ s2) = (occurrences c s1 + occurrences c s2)%nat.
Proof.
  induction s1 as [|a s1 IH]; [done|]. simpl.
  destruct (Ascii.eqb a c); simpl; by rewrite IH.
Qed.

Lemma occurrences_join sep x (l : list string) :
  occurrences sep (Str.join (String sep "") (x :: l)) =
  (sum_list (occurrences sep <$> (x :: l)) + length l)%nat.
Proof.
  revert x. induction l as [|y l IH]; intros x.
  - simpl. lia.
  - change (Str.join (String sep "") (x :: y :: l))
      with (x +:+ String sep (Str.join (String sep "") (y :: l))).
    rewrite occurrences_app.
    assert (∀ r, occurrences sep (String sep r) = S (occurrences sep r))
      as -> by (intros r; simpl; by rewrite Ascii.eqb_refl).
    rewrite IH. simpl. lia.
Qed.

Lemma contains_occurrences c s :
  Str.contains c s = true → (0 < occurrences c s)%nat.
Proof.
  induction s as [|a s IH]; simpl; [done|].
  destruct (Ascii.eqb a c); [lia | done].
Qed.

(** X1. Whatever string the [author] column holds, joining what
    [_form_authors] makes of it gives the string back; the names it makes
    have no comma, and there is one more of them than the string has
    commas, so never none. *)
Theorem form_authors_form_author (author : string) :
  _form_author (Some <$> _form_authors author) = mret author ∧
  Forall (λ a, Str.contains "," a = false) (_form_authors author) ∧
  length (_form_authors author) = S (occurrences "," author).
Proof.
  unfold _form_authors. split_and!.
  - rewrite _form_author_strs. unfold mret, result_ret. f_equal.
    apply (join_split ","%char).
  - apply split_pieces.
  - apply length_split.
Qed.

(** X2. A comma in a name is not undone: when some author has one, the
    stored string splits into more names than were given, one more for each
    comma. *)
Theorem form_author_comma (authors : list string) :
  Exists (λ a, Str.contains "," a = true) authors →
  _form_authors (Str.join "," authors) ≠ authors ∧
  length (_form_authors (Str.join "," authors)) =
    (length authors + sum_list (occurrences "," <$> authors))%nat ∧
  (length authors < length (_form_authors (Str.join "," authors)))%nat.
Proof.
  intros Hex. unfold _form_authors.
  assert (length (Str.split "," (Str.join "," authors)) =
          (length authors + sum_list (occurrences "," <$> authors))%nat)
    as Hlen.
  { destruct authors as [|x l]; [by apply Exists_nil in Hex|].
    rewrite length_split, (occurrences_join ","%char). simpl. lia. }
  assert (0 < sum_list (occurrences "," <$> authors))%nat as Hpos.
  { clear Hlen. induction Hex as [x l Hx|x l _ IH]; csimpl.
    - apply contains_occurrences in Hx. lia.
    - lia. }
  split_and!; [|done|lia].
  intros Heq. rewrite Heq in Hlen. lia.
Qed.

(** ** More about the table *)


Lemma filter_by_title_free name (s : store) :
  check_book_exist name s = false → filter_by_title name s = [].
Proof.
  unfold check_book_exist, first. by destruct (filter_by_title name s).
Qed.

Lemma first_filter_by_title_split name (pre post : store) (b : book) :
  Book.title b = name →
  (∀ x, x ∈ pre → Book.title x ≠ name) →
  first (filter_by_title (Some name) (pre ++ b :: post)) = Some b.
Proof.
  intros Hb Hpre.
  apply check_book_exist_false, filter_by_title_free in Hpre.
  unfold first, filter_by_title in *. rewrite filter_app, Hpre, filter_cons.
  rewrite decide_True; [done | by rewrite Hb].
Qed.


Lemma _form_author_None authors :
  None ∈ authors → _form_author authors = raise TypeError.
Proof.
  intros Hin. unfold _form_author.
  rewrite (proj2 (mapM_None _ authors)); [done|].
  apply Exists_exists. by exists None.
Qed.






(** X6. [remove_book] removes the first row with the title, as its docstring
    says: on a table with unique ids, the rows before it and after it stay,
    also later rows of the same title. *)
Theorem remove_book_first_occurrence name (pre post : store) (b : book) :
  NoDup (Book.id <$> pre ++ b :: post) →
  Book.title b = name →
  (∀ x, x ∈ pre → Book.title x ≠ name) →
  remove_book name (pre ++ b :: post) = (mret (), pre ++ post).
Proof.
  intros Hid Hb Hpre. unfold remove_book.
  rewrite first_filter_by_title_split by done.
  by rewrite session_delete_split.
Qed.

(** X7. On a table that satisfies its invariant, a [remove_book] that
    succeeded leaves no book of the title: [check_book_exist] denies it and
    a second [remove_book] raises [BookNotFoundError], changing nothing. *)
Theorem remove_book_twice name (s : store) :
  store_ok s →
  (remove_book name s).1 = mret () →
  check_book_exist (Some name) (remove_book name s).2 = false ∧
  remove_book name (remove_book name s).2 =
    (raise BookNotFoundError, (remove_book name s).2).
Proof.
  intros [Hid Htitle] Hok.
  assert (check_book_exist (Some name) (remove_book name s).2 = false)
    as Hgone.
  { unfold remove_book in *.
    destruct (first (filter_by_title (Some name) s)) as [b|] eqn:Hfirst;
      [|done].
    apply first_filter_by_title in Hfirst as (pre & post & -> & Hb & Hpre).
    simpl. rewrite session_delete_split by done.
    apply check_book_exist_false. intros x [Hx|Hx]%elem_of_app.
    - by apply Hpre.
    - rewrite fmap_app, fmap_cons in Htitle.
      apply NoDup_app in Htitle as (_ & _ & [Hpost _]%NoDup_cons).
      intros Heq. apply Hpost. rewrite Hb, <- Heq.
      by apply list_elem_of_fmap_2. }
  split; [done|].
  unfold check_book_exist in Hgone. unfold remove_book at 1.
  by destruct (first (filter_by_title (Some name) (remove_book name s).2)).
Qed.

Lemma clean_nil (s : store) : clean s = [].
Proof.
  unfold clean, query_all. rewrite foldl_session_delete.
  apply filter_none, Forall_forall. intros x Hx Hnot.
  by apply Hnot, list_elem_of_fmap_2.
Qed.

Lemma store_ok_run_call (c : call) (s : store) :
  store_ok s → store_ok (run_call c s).
Proof.
  intros Hok. destruct c; simpl.
  - by apply store_ok_add_book.
  - by apply store_ok_remove_book.
  - rewrite clean_nil. apply store_ok_nil.
  - by apply store_ok_books_from_xml.
Qed.

(** X8. Whatever calls of [add_book], [remove_book], [clean] and
    [books_from_xml] are made on an empty table, in any order and whether
    they return or raise, no two rows of the table they leave share a title
    or an id. *)
Theorem run_store_ok (calls : list call) : store_ok (run calls []).
Proof.
  unfold run.
  assert (∀ s : store, store_ok s →
            store_ok (foldl (λ table c, run_call c table) s calls)) as Hrun.
  { induction calls as [|c calls IH]; intros s Hok; [done|].
    simpl. by apply IH, store_ok_run_call. }
  apply Hrun, store_ok_nil.
Qed.

(** ** More about [books_from_xml] *)

Lemma add_record_appends record (s : store) :
  ∃ created, (add_record record s).2 = s ++ created.
Proof.
  destruct (add_record record s) as [[e|new_id] s'] eqn:Hadd; simpl.
  - apply add_record_error in Hadd as ->. exists []. by rewrite app_nil_r.
  - apply add_record_ok in Hadd as (b & -> & _). by exists [b].
Qed.

Lemma add_records_appends records (s : store) :
  ∃ created, (add_records records s).2 = s ++ created.
Proof.
  revert s. induction records as [|record records IH]; intros s; simpl.
  - exists []. by rewrite app_nil_r.
  - destruct (add_record_appends record s) as [created1 H1].
    destruct (add_record record s) as [[e|new_id] s1]; simpl in *.
    + by exists created1.
    + destruct (IH s1) as [created2 H2]. exists (created1 ++ created2).
      by rewrite H2, H1, app_assoc.
Qed.

(** X9. [books_from_xml] only appends: whatever the file holds and whether
    the import returns or raises, the rows stored before are all there
    afterwards, unchanged and in their order, followed by the rows it
    added. *)
Theorem books_from_xml_appends fs path (s : store) :
  ∃ created,
    (books_from_xml fs path s).2 = s ++ created ∧
    get_all_books (books_from_xml fs path s).2 =
      get_all_books s ++ get_all_books created.
Proof.
  assert (∃ created, (books_from_xml fs path s).2 = s ++ created)
    as [created Hc].
  { unfold books_from_xml.
    destruct (fs path) as [| |content];
      [exists []; by rewrite app_nil_r..|].
    destruct (XML content) as [root|];
      [apply add_records_appends | exists []; by rewrite app_nil_r]. }
  exists created. by rewrite Hc, get_all_books_app.
Qed.







Lemma add_records_reaches (pre : list Element.t) child post (s s' : store) :
  add_records (record_of <$> pre) s = (mret (), s') →
  add_records (record_of <$> pre ++ child :: post) s =
  match add_record (record_of child) s' with
  | (inl e, s'') => (inl e, s'')
  | (inr _, s'') => add_records (record_of <$> post) s''
  end.
Proof.
  intros Hpre. rewrite fmap_app, fmap_cons, add_records_app, Hpre. done.
Qed.

(** X11. A book element that has no [category], neither as an attribute of
    its own nor from a child, makes the import raise [KeyError] for that
    key when it is reached, whatever else it holds; the books before it
    stay stored and nothing after it is looked at. *)
Theorem books_from_xml_missing_category fs path content root pre child post
    (s s' : store) :
  fs path = Opened content →
  XML content = Some root →
  Element.children root = pre ++ child :: post →
  add_records (record_of <$> pre) s = (mret (), s') →
  Element.attrib child !! "category" = None →
  Forall (λ c, ¬ writes "category" c) (Element.children child) →
  books_from_xml fs path s = (raise (KeyError "category"), s').
Proof.
  intros Hopen Hxml Hch Hpre Hattr Hnone.
  unfold books_from_xml, records_of. rewrite Hopen, Hxml, Hch.
  rewrite (add_records_reaches pre child post s s' Hpre).
  assert (record_of child !! "category" = None) as Hcat.
  { rewrite record_of_lookup_ne by done.
    rewrite foldl_step_untouched by done. simpl.
    by rewrite lookup_update, Hattr, lookup_empty. }
  unfold add_record, getitem. by rewrite Hcat.
Qed.

(** A record with its keys in place and numbers that convert gets as far as
    the call of [add_book], with the texts of the [author] children as the
    authors. *)
Lemma add_record_add_book child (s : store) category title year n price x :
  record_of child !! "category" = Some (VText category) →
  record_of child !! "title" = Some (VText title) →
  record_of child !! "year" = Some year →
  py_int year = inr n →
  record_of child !! "price" = Some price →
  py_float price = inr x →
  ∃ language cover,
    add_record (record_of child) s =
    add_book category title (author_texts (Element.children child)) n x
      language cover s.
Proof.
  intros Hcat Htitle Hyear Hint Hprice Hfloat.
  destruct (record_of_get child "language") as [language Hl]; [done|].
  destruct (record_of_get child "cover") as [cover Hc]; [done|].
  exists language, cover. unfold add_record, getitem.
  rewrite Hcat, Htitle, record_of_authors, Hyear, Hprice, Hl, Hc. simpl.
  rewrite Hint. simpl. by rewrite Hfloat.
Qed.

(** X12. An [author] child without text makes the import raise [TypeError]
    at its book, when the book is otherwise in order and its title is free:
    nothing is stored for it, the books before it stay. *)
Theorem books_from_xml_author_without_text fs path content root pre child
    post (s s' : store) category title year n price x :
  fs path = Opened content →
  XML content = Some root →
  Element.children root = pre ++ child :: post →
  add_records (record_of <$> pre) s = (mret (), s') →
  None ∈ author_texts (Element.children child) →
  record_of child !! "category" = Some (VText category) →
  record_of child !! "title" = Some (VText title) →
  record_of child !! "year" = Some year →
  py_int year = inr n →
  record_of child !! "price" = Some price →
  py_float price = inr x →
  check_book_exist title s' = false →
  books_from_xml fs path s = (raise TypeError, s').
Proof.
  intros Hopen Hxml Hch Hpre Hauthor Hcat Htitle Hyear Hint Hprice Hfloat
    Hfree.
  unfold books_from_xml, records_of. rewrite Hopen, Hxml, Hch.
  rewrite (add_records_reaches pre child post s s' Hpre).
  destruct (add_record_add_book child s' category title year n price x)
    as (language & cover & ->); try done.
  unfold add_book. by rewrite Hfree, _form_author_None.
Qed.


(** ** [get_input_value] *)

Lemma get_input_loop_cases {A} (type : return_type A) value_name required
    inner lines out :
  let r := get_input_loop type value_name required inner lines out in
  (r.1 = inl EOFError ∧ stdin (r.2) = []) ∨
  (∃ inp value,
     r.1 = inr (if truth type value then Some value else None) ∧
     construct type inp = Some value ∧
     (required = false ∨ inp ≠ "") ∧
     (length (stdin (r.2)) < length lines)%nat).
Proof.
  revert inner out. induction lines as [|inp lines IH]; intros inner out.
  - left. done.
  - simpl.
    destruct (required && bool_decide (inp = "")) eqn:Hblank.
    { destruct (IH true
                  (out ++ [if inner
                           then "The " +:+ value_name +:+
                                " is required, please enter again:"
                           else "Please, enter the " +:+ value_name +:+ ":"]))
        as [Heof|(inp' & value & ? & ? & ? & ?)]; [by left|].
      right. exists inp', value. split_and!; [done..|lia]. }
    destruct (construct type inp) as [value|] eqn:Hvalue.
    + right. exists inp, value. simpl. split_and!; [done | done | | lia].
      apply andb_false_iff in Hblank as [->|Hne]; [by left|].
      right. by apply bool_decide_eq_false in Hne.
    + match goal with
      | |- context [get_input_loop _ _ _ false lines ?o] =>
          destruct (IH false o)
            as [Heof|(inp' & value & ? & ? & ? & ?)]; [by left|]
      end.
      right. exists inp', value. split_and!; [done..|lia].
Qed.

Lemma get_input_loop_stdout {A} (type : return_type A) value_name required
    inner lines out :
  ∃ written,
    stdout (get_input_loop type value_name required inner lines out).2 =
    out ++ written.
Proof.
  revert inner out. induction lines as [|inp lines IH]; intros inner out.
  - by eexists.
  - simpl. destruct (required && bool_decide (inp = "")).
    { edestruct IH as [written ->]. rewrite <- app_assoc. by eexists. }
    destruct (construct type inp).
    + by eexists.
    + edestruct IH as [written ->]. rewrite <- !app_assoc. by eexists.
Qed.

(** The lines [get_input_value] reads over, and the line it stops at. *)
Lemma get_input_loop_reads {A} (type : return_type A) value_name required
    inner passed inp rest value out :
  Forall (skipped type required) passed →
  required = false ∨ inp ≠ "" →
  construct type inp = Some value →
  ∃ written,
    get_input_loop type value_name required inner (passed ++ inp :: rest) out
    = (inr (if truth type value then Some value else None),
       Console rest (out ++ written)).
Proof.
  intros Hpassed Hinp Hvalue. revert inner out.
  induction Hpassed as [|line passed Hline _ IH]; intros inner out; simpl.
  - assert (required && bool_decide (inp = "") = false) as ->.
    { destruct Hinp as [->|Hne]; [done|].
      rewrite bool_decide_eq_false_2 by done. apply andb_false_r. }
    rewrite Hvalue. by eexists.
  - destruct (required && bool_decide (line = "")) eqn:Hblank.
    { edestruct IH as [written ->]. rewrite <- app_assoc. by eexists. }
    destruct Hline as [[-> ->]|Hnone]; [done|].
    rewrite Hnone. edestruct IH as [written ->].
    rewrite <- !app_assoc. by eexists.
Qed.

Lemma get_input_loop_eof {A} (type : return_type A) value_name required
    inner lines out :
  Forall (skipped type required) lines →
  ∃ written,
    get_input_loop type value_name required inner lines out =
    (inl EOFError, Console [] (out ++ written)).
Proof.
  intros Hlines. revert inner out.
  induction Hlines as [|line lines Hline _ IH]; intros inner out; simpl.
  - by eexists.
  - destruct (required && bool_decide (line = "")) eqn:Hblank.
    { edestruct IH as [written ->]. rewrite <- app_assoc. by eexists. }
    destruct Hline as [[-> ->]|Hnone]; [done|].
    rewrite Hnone. edestruct IH as [written ->].
    rewrite <- !app_assoc. by eexists.
Qed.

(** X14. [get_input_value] reads over the lines it cannot use, an empty
    line for a required value and any line its type rejects, and stops at
    the first other line: it returns what the type makes of that line, or
    [None] when that counts as false (the empty string, the number 0),
    leaving the lines after it unread. *)
Theorem get_input_value_reads {A} (type : return_type A) value_name required
    passed inp rest value (c : console) :
  stdin c = passed ++ inp :: rest →
  Forall (skipped type required) passed →
  required = false ∨ inp ≠ "" →
  construct type inp = Some value →
  ∃ written,
    get_input_value type value_name required c =
    Some (inr (if truth type value then Some value else None),
          Console rest (stdout c ++ written)).
Proof.
  intros Hstdin Hpassed Hinp Hvalue. unfold get_input_value. rewrite Hstdin.
  edestruct (get_input_loop_reads type value_name required false passed inp
               rest value (stdout c)) as [written ->]; [done..|].
  by eexists.
Qed.

(** X15. When no line of the input can be used, [get_input_value] reads
    all of it and ends in the [EOFError] of [input]; it raises nothing
    else, and when it returns it has read at least one line. *)
Theorem get_input_value_eof {A} (type : return_type A) value_name required
    (c : console) :
  (Forall (skipped type required) (stdin c) →
   ∃ written,
     get_input_value type value_name required c =
     Some (inl EOFError, Console [] (stdout c ++ written))) ∧
  (∀ e c',
     get_input_value type value_name required c = Some (inl e, c') →
     e = EOFError ∧ stdin c' = []) ∧
  (∀ v c',
     get_input_value type value_name required c = Some (inr v, c') →
     (length (stdin c') < length (stdin c))%nat).
Proof.
  unfold get_input_value. split_and!.
  - intros Hlines.
    edestruct (get_input_loop_eof type value_name required false (stdin c)
                 (stdout c)) as [written ->]; [done|].
    by eexists.
  - intros e c' [= Hloop].
    destruct (get_input_loop_cases type value_name required false (stdin c)
                (stdout c)) as [[He Hs]|(inp & value & Hv & _)];
      rewrite Hloop in *; simpl in *; [|done].
    by injection He as ->.
  - intros v c' [= Hloop].
    destruct (get_input_loop_cases type value_name required false (stdin c)
                (stdout c)) as [[He Hs]|(inp & value & Hv & _ & _ & Hlen)];
      rewrite Hloop in *; simpl in *; done.
Qed.

(** ** [read_book] *)

Lemma io_post_ret {A} (x : A) (P : A → Prop) : P x → io_post (mret x) P.
Proof. intros HP c r c' [= <- <-]. done. Qed.

Lemma io_post_bind {A B} (m : IO A) (f : A → IO B) (P : A → Prop)
    (Q : B → Prop) :
  io_post m P → (∀ x, P x → io_post (f x) Q) → io_post (m ≫= f) Q.
Proof.
  intros Hm Hf c r c'. unfold mbind, io_bind.
  destruct (m c) as [[[e|x] c1]|] eqn:Hmc; [| |done].
  - intros [= <- <-]. apply (Hm c (inl e) c1 Hmc).
  - apply (Hf x (Hm c (inr x) c1 Hmc)).
Qed.

Lemma io_post_weaken {A} (m : IO A) (P Q : A → Prop) :
  io_post m P → (∀ x, P x → Q x) → io_post m Q.
Proof.
  intros Hm HPQ c r c' Hr. specialize (Hm c r c' Hr).
  destruct r; [done | by apply HPQ].
Qed.




(** What [get_input_value] returns counts as true, or is [None]. *)
Lemma io_post_get_input_value {A} (type : return_type A) value_name
    required :
  io_post (get_input_value type value_name required)
    (λ v, ∀ x, v = Some x → truth type x = true).
Proof.
  intros c r c' [= Hloop].
  destruct (get_input_loop_cases type value_name required false (stdin c)
              (stdout c)) as [[He _]|(inp & value & Hv & _)];
    rewrite Hloop in *; simpl in *.
  - by subst r.
  - subst r. intros x. by destruct (truth type value) eqn:Ht; intros [= <-].
Qed.

(** A required [str] is returned as a string that is not empty. *)
Lemma io_post_get_input_value_required value_name :
  io_post (get_input_value str_type value_name true)
    (λ v, ∃ line, v = Some line ∧ line ≠ "").
Proof.
  intros c r c' [= Hloop].
  destruct (get_input_loop_cases str_type value_name true false (stdin c)
              (stdout c))
    as [[He _]|(inp & value & Hv & [= <-] & [?|Hne] & _)];
    rewrite Hloop in *; simpl in *; [by subst r | done |].
  subst r. exists inp. by rewrite bool_decide_eq_true_2.
Qed.



(** The title the loop ends with is free; it is the one the loop began with,
    or a string that is not empty. *)
Lemma io_post_title_loop bound (s : store) title :
  io_post (title_loop bound s title)
    (λ title', check_book_exist title' s = false ∧
               (title' = title ∨ ∃ line, title' = Some line ∧ line ≠ "")).
Proof.
  revert title. induction bound as [|bound IH]; intros title; simpl.
  - destruct (check_book_exist title s) eqn:Hex; [done|].
    apply io_post_ret. auto.
  - destruct (check_book_exist title s) eqn:Hex;
      [|apply io_post_ret; auto].
    apply (io_post_bind _ _ (λ _, True)).
    { intros c r c' [= <- <-]. done. }
    intros _ _.
    eapply io_post_bind; [apply io_post_get_input_value_required|].
    intros title' Htitle'. eapply io_post_weaken; [apply IH|].
    intros t [Hfree [->|Hline]]; auto.
Qed.


(** The loop only adds authors, and only strings that are not empty. *)
Lemma io_post_authors_loop bound authors author :
  io_post (authors_loop bound authors author)
    (λ authors', ∃ more, authors' = authors ++ (Some <$> more) ∧
                         Forall (λ a, a ≠ "") more).
Proof.
  revert authors author.
  induction bound as [|bound IH]; intros authors author; simpl.
  - destruct (truthy author); [done|].
    apply io_post_ret. exists []. by rewrite app_nil_r.
  - destruct (truthy author);
      [|apply io_post_ret; exists []; by rewrite app_nil_r].
    eapply io_post_bind; [apply (io_post_get_input_value str_type)|].
    intros author' Hauthor'. eapply io_post_weaken; [apply IH|].
    intros authors' (more & -> & Hmore).
    destruct author' as [line|]; simpl.
    + specialize (Hauthor' line eq_refl). simpl in Hauthor'.
      rewrite Hauthor'. exists (line :: more).
      split; [by rewrite <- app_assoc|].
      constructor; [by apply bool_decide_eq_true in Hauthor' | done].
    + by exists more.
Qed.


Lemma io_post_bounded {A} (loop : nat → IO A) (P : A → Prop) :
  (∀ bound, io_post (loop bound) P) → io_post (bounded loop) P.
Proof. intros Hloop c r c'. apply Hloop. Qed.

(** What [read_book] hands to [add_book]. *)
Lemma io_post_read_book_input (s : store) :
  io_post (read_book_input s)
    (λ '(category, title, authors, year, price, language, cover),
       (∃ line, category = Some line ∧ line ≠ "") ∧
       (∃ line, title = Some line ∧ line ≠ "") ∧
       check_book_exist title s = false ∧
       (∃ names, authors = Some <$> names ∧ names ≠ [] ∧
                 Forall (λ a, a ≠ "") names) ∧
       year ≠ Some 0 ∧
       (∀ x, price = Some x → float_bool x = true) ∧
       language ≠ Some "" ∧ cover ≠ Some "").
Proof.
  unfold read_book_input.
  eapply io_post_bind; [apply io_post_get_input_value_required|].
  intros title0 Htitle0.
  eapply io_post_bind;
    [apply io_post_bounded; intros bound; apply io_post_title_loop|].
  intros title [Hfree Htitle].
  eapply io_post_bind; [apply io_post_get_input_value_required|].
  intros category Hcategory.
  eapply io_post_bind; [apply io_post_get_input_value_required|].
  intros author (first_name & -> & Hfirst).
  eapply io_post_bind;
    [apply io_post_bounded; intros bound; apply io_post_authors_loop|].
  intros authors (more & -> & Hmore).
  eapply io_post_bind; [apply (io_post_get_input_value int_type)|].
  intros year Hyear.
  eapply io_post_bind; [apply (io_post_get_input_value float_type)|].
  intros price Hprice.
  eapply io_post_bind; [apply (io_post_get_input_value str_type)|].
  intros language Hlanguage.
  eapply io_post_bind; [apply (io_post_get_input_value str_type)|].
  intros cover Hcover.
  apply io_post_ret. split_and!; try done.
  - by destruct Htitle as [->|?].
  - exists (first_name :: more). split_and!; [done | done | by constructor].
  - intros ->. by specialize (Hyear 0 eq_refl).
  - intros ->. by specialize (Hlanguage "" eq_refl).
  - intros ->. by specialize (Hcover "" eq_refl).
Qed.



(** X17. A book that [read_book] stores has passed its checks: the call
    appends exactly one row, under a title that was free and is not empty,
    with a category that is not empty, with the join of at least one
    author, none of them empty, with a year other than 0 and a price that
    counts as true, and with no empty language or cover. *)
Theorem read_book_stores (c c' : console) (s s' : store) :
  read_book c s = Some (inr (), c', s') →
  ∃ b names,
    s' = s ++ [b] ∧
    Book.id b = next_id s ∧
    check_book_exist (Some (Book.title b)) s = false ∧
    Book.title b ≠ "" ∧
    Book.category b ≠ "" ∧
    Book.author b = Str.join "," names ∧
    names ≠ [] ∧ Forall (λ a, a ≠ "") names ∧
    Book.year b ≠ 0 ∧
    float_bool (Book.price b) = true ∧
    Book.language b ≠ Some "" ∧ Book.cover b ≠ Some "".
Proof.
  unfold read_book.
  destruct (read_book_input s c) as [[r c1]|] eqn:Hinput; [|done].
  pose proof (io_post_read_book_input s c r c1 Hinput) as Hpost.
  destruct r as [e0|[[[[[[category title] authors] year] price] language]
                    cover]]; [done|].
  destruct Hpost
    as ((cat & -> & Hcat) & (t & -> & Ht) & Hfree &
        (names & -> & Hne & Hnames) & Hyear & Hprice & Hlang & Hcover).
  unfold add_book_input.
  destruct year as [year|], price as [price|];
    try (rewrite Hfree, _form_author_strs; done).
  rewrite add_book_typed, Hfree. intros [= <- <-].
  eexists _, names. split_and!; try done; simpl.
  - congruence.
  - by apply Hprice.
Qed.








(** ** What the import and the commands raise *)




(** X21. The command to remove a book never raises: [execute_command]
    catches the [BookNotFoundError] of [remove_book] and prints that the
    title was not found, leaving the table as it was; for a stored title it
    prints nothing and the table is what [remove_book] leaves. *)
Theorem execute_command_remove args isfile fs name (c : console) (s : store) :
  Args.add args = false →
  Args.remove args = Some name →
  name ≠ "" →
  execute_command args isfile fs c s =
  Some (inr (),
        Console (stdin c)
          (stdout c ++
           if check_book_exist (Some name) s then []
           else ["Book with title " +:+ name +:+
                 " was not found in the system."]),
        (remove_book name s).2) ∧
  (check_book_exist (Some name) s = false → (remove_book name s).2 = s).
Proof.
  intros Hadd Hremove Hname. unfold execute_command.
  rewrite Hadd, Hremove. simpl. rewrite bool_decide_eq_true_2 by done.
  unfold remove_book, check_book_exist.
  destruct (first (filter_by_title (Some name) s)) as [b|]; simpl.
  - rewrite app_nil_r. by destruct c.
  - done.
Qed.


(** ** From a dictionary to an element and back *)









End Library.

(** ** The operations at work *)

(** The scenario of the two books titled Dune: the second [add_book] raises
    and the first book is all that [get_all_books] returns. *)
Example add_dune_twice :
  let s1 := (add_book (float:=Q) (Some "fiction") (Some "Dune")
               [Some "Herbert"] 1965 12.5%Q None None []).2 in
  let second := add_book (Some "fiction") (Some "Dune") [Some "Other"] 1965
                  12.5%Q None None s1 in
  second = (raise DuplicatedBookTitleError, s1) ∧
  get_all_books (second.2) =
    [entry_of "fiction" "Dune" ["Herbert"] 1965 12.5%Q None None].
Proof. by vm_compute. Qed.

(** Titles are compared as they are: [dune] is not [Dune]. *)
Example add_dune_lower_case :
  (add_book (float:=Q) (Some "fiction") (Some "dune") [Some "Herbert"] 1965
     12.5%Q None None [Demo.stored_dune]).1 = mret 3.
Proof. by vm_compute. Qed.

(** A name with a comma comes back as two names. *)
Example authors_with_comma :
  _form_authors "Tolkien, J.R.R." = ["Tolkien"; " J.R.R."].
Proof. by vm_compute. Qed.

Example import_dune :
  books_from_xml Demo.parse_int Demo.parse_float Demo.XML
    Demo.fs "dune.xml" [] =
  (mret (), [Book.mk 1 "fiction" "Dune" "Herbert" 1965 12%Q None None]).
Proof. by vm_compute. Qed.

(** The import stops at a title that is taken as well. *)
Example import_dune_again :
  books_from_xml Demo.parse_int Demo.parse_float Demo.XML
    Demo.fs "dune.xml" [Demo.stored_emma; Demo.stored_dune] =
  (raise DuplicatedBookTitleError, [Demo.stored_emma; Demo.stored_dune]).
Proof. by vm_compute. Qed.

(** ** The theorems at concrete inputs *)



Lemma remove_book_not_found_witness :
  (∀ b, b ∈ [Demo.stored_emma] → Book.title b ≠ "Dune") ∧
  remove_book "Dune" [Demo.stored_emma] =
    (raise BookNotFoundError, [Demo.stored_emma]) ∧
  get_all_books (remove_book "Dune" [Demo.stored_emma]).2 =
    get_all_books [Demo.stored_emma] ∧
  length (get_all_books (remove_book "Dune" [Demo.stored_emma]).2) =
    length (get_all_books [Demo.stored_emma]).
Proof.
  assert (∀ b, b ∈ [Demo.stored_emma] → Book.title b ≠ "Dune") as Hnone.
  { intros b Hb. apply list_elem_of_singleton in Hb. rewrite Hb.
    discriminate. }
  split; [exact Hnone|].
  exact (remove_book_not_found "Dune" [Demo.stored_emma] Hnone).
Defined.

Lemma remove_book_present_witness :
  store_ok [Demo.stored_emma; Demo.stored_dune] ∧
  (∃ b, b ∈ [Demo.stored_emma; Demo.stored_dune] ∧
        Book.title b = "Emma") ∧
  ∃ pre b post,
    [Demo.stored_emma; Demo.stored_dune] = pre ++ b :: post ∧
    Book.title b = "Emma" ∧
    remove_book "Emma" [Demo.stored_emma; Demo.stored_dune] =
      (mret (), pre ++ post) ∧
    S (length (pre ++ post)) =
      length [Demo.stored_emma; Demo.stored_dune] ∧
    ∀ x, x ∈ pre ++ post ↔
         x ∈ [Demo.stored_emma; Demo.stored_dune] ∧
         Book.title x ≠ "Emma".
Proof.
  assert (store_ok [Demo.stored_emma; Demo.stored_dune]) as Hok.
  { split; apply (bool_decide_unpack _); vm_compute; exact I. }
  assert (∃ b, b ∈ [Demo.stored_emma; Demo.stored_dune] ∧
               Book.title b = "Emma") as Hex.
  { exists Demo.stored_emma. split; [left | reflexivity]. }
  split_and!; [exact Hok | exact Hex |].
  exact (remove_book_present "Emma" [Demo.stored_emma; Demo.stored_dune]
           Hok Hex).
Defined.






Lemma record_of_authors_and_texts_witness :
  record_of Demo.two_authors !! "authors" =
    Some (VList [Some "Herbert"; Some "Anderson"]) ∧
  record_of Demo.two_authors !! "title" = Some (VText (Some "C")).
Proof.
  destruct (record_of_authors_and_texts Demo.two_authors)
    as (Hauthors & _ & Hlast).
  split; [exact Hauthors|].
  apply (Hlast [Demo.field "title" ∅ "B"; Demo.field "author" ∅ "Herbert"]
           (Demo.field "title" ∅ "C")
           [Demo.field "author" ∅ "Anderson"]);
    [reflexivity | discriminate | discriminate | by vm_compute |].
  apply (bool_decide_unpack _). vm_compute. exact I.
Defined.

(** ** The further theorems at concrete inputs *)

Lemma form_author_comma_witness :
  Exists (λ a, Str.contains "," a = true) ["Tolkien, J.R.R."; "Lewis"] ∧
  _form_authors (Str.join "," ["Tolkien, J.R.R."; "Lewis"]) ≠
    ["Tolkien, J.R.R."; "Lewis"] ∧
  length (_form_authors (Str.join "," ["Tolkien, J.R.R."; "Lewis"])) =
    (length ["Tolkien, J.R.R."; "Lewis"] +
     sum_list (occurrences "," <$> ["Tolkien, J.R.R."; "Lewis"]))%nat ∧
  (length ["Tolkien, J.R.R."; "Lewis"] <
   length (_form_authors (Str.join "," ["Tolkien, J.R.R."; "Lewis"])))%nat.
Proof.
  assert (Exists (λ a, Str.contains "," a = true)
            ["Tolkien, J.R.R."; "Lewis"]) as Hex
    by (apply Exists_cons_hd; reflexivity).
  split; [exact Hex|].
  exact (form_author_comma ["Tolkien, J.R.R."; "Lewis"] Hex).
Defined.



Lemma remove_book_first_occurrence_witness :
  NoDup (Book.id <$> [Demo.stored_emma] ++ Demo.stored_dune ::
                     [Demo.other_dune]) ∧
  Book.title Demo.stored_dune = "Dune" ∧
  (∀ x, x ∈ [Demo.stored_emma] → Book.title x ≠ "Dune") ∧
  remove_book "Dune"
    ([Demo.stored_emma] ++ Demo.stored_dune :: [Demo.other_dune]) =
  (mret (), [Demo.stored_emma] ++ [Demo.other_dune]).
Proof.
  assert (NoDup (Book.id <$> [Demo.stored_emma] ++ Demo.stored_dune ::
                             [Demo.other_dune])) as Hid
    by (apply (bool_decide_unpack _); vm_compute; exact I).
  assert (∀ x, x ∈ [Demo.stored_emma] → Book.title x ≠ "Dune") as Hpre.
  { intros x Hx. apply list_elem_of_singleton in Hx. rewrite Hx.
    discriminate. }
  split_and!; [exact Hid | reflexivity | exact Hpre |].
  exact (remove_book_first_occurrence "Dune" [Demo.stored_emma]
           [Demo.other_dune] Demo.stored_dune Hid eq_refl Hpre).
Defined.

Lemma remove_book_twice_witness :
  store_ok [Demo.stored_emma; Demo.stored_dune] ∧
  (remove_book "Emma" [Demo.stored_emma; Demo.stored_dune]).1 = mret () ∧
  check_book_exist (Some "Emma")
    (remove_book "Emma" [Demo.stored_emma; Demo.stored_dune]).2 = false ∧
  remove_book "Emma"
    (remove_book "Emma" [Demo.stored_emma; Demo.stored_dune]).2 =
  (raise BookNotFoundError,
   (remove_book "Emma" [Demo.stored_emma; Demo.stored_dune]).2).
Proof.
  assert (store_ok [Demo.stored_emma; Demo.stored_dune]) as Hok.
  { split; apply (bool_decide_unpack _); vm_compute; exact I. }
  split_and!; [exact Hok | reflexivity | |];
    apply (remove_book_twice "Emma" [Demo.stored_emma; Demo.stored_dune] Hok
             eq_refl).
Defined.


Lemma books_from_xml_missing_category_witness :
  Demo.fs "dune.xml" = Opened "dune" ∧
  Some (Element.mk "books" ∅ None
          [Demo.emma; Demo.no_category; Demo.dune]) =
    Some (Element.mk "books" ∅ None
            [Demo.emma; Demo.no_category; Demo.dune]) ∧
  Element.children
    (Element.mk "books" ∅ None [Demo.emma; Demo.no_category; Demo.dune]) =
    [Demo.emma] ++ Demo.no_category :: [Demo.dune] ∧
  add_records Demo.parse_int Demo.parse_float (record_of <$> [Demo.emma]) []
    = (mret (), [Demo.stored_emma]) ∧
  Element.attrib Demo.no_category !! "category" = None ∧
  Forall (λ c, ¬ writes "category" c) (Element.children Demo.no_category) ∧
  books_from_xml Demo.parse_int Demo.parse_float
    (λ _, Some (Element.mk "books" ∅ None
                  [Demo.emma; Demo.no_category; Demo.dune]))
    Demo.fs "dune.xml" [] =
  (raise (KeyError "category"), [Demo.stored_emma]).
Proof.
  assert (add_records Demo.parse_int Demo.parse_float
            (record_of <$> [Demo.emma]) [] = (mret (), [Demo.stored_emma]))
    as Hpre by (vm_compute; reflexivity).
  assert (Forall (λ c, ¬ writes "category" c)
            (Element.children Demo.no_category)) as Hnone
    by (apply (bool_decide_unpack _); vm_compute; exact I).
  split_and!; [reflexivity | reflexivity | reflexivity | exact Hpre
              | reflexivity | exact Hnone |].
  exact (books_from_xml_missing_category Demo.parse_int Demo.parse_float
           (λ _, Some (Element.mk "books" ∅ None
                         [Demo.emma; Demo.no_category; Demo.dune]))
           Demo.fs "dune.xml" "dune"
           (Element.mk "books" ∅ None
              [Demo.emma; Demo.no_category; Demo.dune])
           [Demo.emma] Demo.no_category [Demo.dune] [] [Demo.stored_emma]
           eq_refl eq_refl eq_refl Hpre eq_refl Hnone).
Defined.

Lemma books_from_xml_author_without_text_witness :
  Demo.fs "dune.xml" = Opened "dune" ∧
  Element.children (Element.mk "books" ∅ None [Demo.silent_author]) =
    [] ++ Demo.silent_author :: [] ∧
  add_records Demo.parse_int Demo.parse_float (record_of <$> [])
    [Demo.stored_emma] = (mret (), [Demo.stored_emma]) ∧
  None ∈ author_texts (Element.children Demo.silent_author) ∧
  record_of Demo.silent_author !! "category" =
    Some (VText (Some "fiction")) ∧
  record_of Demo.silent_author !! "title" = Some (VText (Some "Dune")) ∧
  record_of Demo.silent_author !! "year" = Some (VText (Some "1965")) ∧
  py_int Demo.parse_int (VText (Some "1965")) = inr 1965 ∧
  record_of Demo.silent_author !! "price" = Some (VText (Some "12")) ∧
  py_float Demo.parse_float (VText (Some "12")) = inr 12%Q ∧
  check_book_exist (Some "Dune") [Demo.stored_emma] = false ∧
  books_from_xml Demo.parse_int Demo.parse_float
    (λ _, Some (Element.mk "books" ∅ None [Demo.silent_author]))
    Demo.fs "dune.xml" [Demo.stored_emma] =
  (raise TypeError, [Demo.stored_emma]).
Proof.
  assert (None ∈ author_texts (Element.children Demo.silent_author))
    as Hauthor by (vm_compute; right; left).
  assert (record_of Demo.silent_author !! "category" =
          Some (VText (Some "fiction"))) as Hcat by (by vm_compute).
  assert (record_of Demo.silent_author !! "title" =
          Some (VText (Some "Dune"))) as Htitle by (by vm_compute).
  assert (record_of Demo.silent_author !! "year" =
          Some (VText (Some "1965"))) as Hyear by (by vm_compute).
  assert (record_of Demo.silent_author !! "price" =
          Some (VText (Some "12"))) as Hprice by (by vm_compute).
  split_and!; [reflexivity | reflexivity | reflexivity | exact Hauthor
              | exact Hcat | exact Htitle | exact Hyear | reflexivity
              | exact Hprice | reflexivity | reflexivity |].
  exact (books_from_xml_author_without_text Demo.parse_int Demo.parse_float
           (λ _, Some (Element.mk "books" ∅ None [Demo.silent_author]))
           Demo.fs "dune.xml" "dune"
           (Element.mk "books" ∅ None [Demo.silent_author])
           [] Demo.silent_author [] [Demo.stored_emma] [Demo.stored_emma]
           (Some "fiction") (Some "Dune") (VText (Some "1965")) 1965
           (VText (Some "12")) 12%Q
           eq_refl eq_refl eq_refl eq_refl Hauthor Hcat Htitle Hyear eq_refl
           Hprice eq_refl eq_refl).
Defined.


Lemma get_input_value_reads_witness :
  stdin (Console [""; "MCMLXV"; "1965"; "12"] []) =
    [""; "MCMLXV"] ++ "1965" :: ["12"] ∧
  Forall (skipped (int_type Demo.parse_int) true) [""; "MCMLXV"] ∧
  (true = false ∨ "1965" ≠ "") ∧
  construct (int_type Demo.parse_int) "1965" = Some 1965 ∧
  ∃ written,
    get_input_value (int_type Demo.parse_int) "year" true
      (Console [""; "MCMLXV"; "1965"; "12"] []) =
    Some (inr (if truth (int_type Demo.parse_int) 1965
               then Some 1965 else None),
          Console ["12"] ([] ++ written)).
Proof.
  assert (Forall (skipped (int_type Demo.parse_int) true) [""; "MCMLXV"])
    as Hpassed.
  { constructor; [by left|].
    constructor; [right; by vm_compute | constructor]. }
  assert (true = false ∨ "1965" ≠ "") as Hinp by (right; discriminate).
  split_and!; [reflexivity | exact Hpassed | exact Hinp | reflexivity |].
  exact (get_input_value_reads (int_type Demo.parse_int) "year" true
           [""; "MCMLXV"] "1965" ["12"] 1965
           (Console [""; "MCMLXV"; "1965"; "12"] []) eq_refl Hpassed Hinp
           eq_refl).
Defined.



Lemma read_book_stores_witness :
  ∃ c' s',
    read_book Demo.parse_int Demo.parse_float Demo.float_bool
      (Console Demo.lines_of_dune []) [Demo.stored_emma] =
    Some (inr (), c', s') ∧
    ∃ b names,
      s' = [Demo.stored_emma] ++ [b] ∧
      Book.id b = next_id [Demo.stored_emma] ∧
      check_book_exist (Some (Book.title b)) [Demo.stored_emma] = false ∧
      Book.title b ≠ "" ∧
      Book.category b ≠ "" ∧
      Book.author b = Str.join "," names ∧
      names ≠ [] ∧ Forall (λ a, a ≠ "") names ∧
      Book.year b ≠ 0 ∧
      Demo.float_bool (Book.price b) = true ∧
      Book.language b ≠ Some "" ∧ Book.cover b ≠ Some "".
Proof.
  eexists _, _. split; [reflexivity|].
  eapply (read_book_stores Demo.parse_int Demo.parse_float Demo.float_bool
            (Console Demo.lines_of_dune [])).
  reflexivity.
Defined.


Lemma execute_command_remove_witness :
  Args.add (Args.mk false (Some "Dune") true None) = false ∧
  Args.remove (Args.mk false (Some "Dune") true None) = Some "Dune" ∧
  "Dune" ≠ "" ∧
  execute_command Demo.parse_int Demo.parse_float Demo.XML Demo.float_bool
    Demo.str_float (Args.mk false (Some "Dune") true None) (λ _, false)
    Demo.fs (Console [] []) [Demo.stored_emma] =
  Some (inr (),
        Console (stdin (Console [] []))
          (stdout (Console [] []) ++
           if check_book_exist (Some "Dune") [Demo.stored_emma] then []
           else ["Book with title " +:+ "Dune" +:+
                 " was not found in the system."]),
        (remove_book "Dune" [Demo.stored_emma]).2) ∧
  (check_book_exist (Some "Dune") [Demo.stored_emma] = false →
   (remove_book "Dune" [Demo.stored_emma]).2 = [Demo.stored_emma]).
Proof.
  split_and!; [reflexivity | reflexivity | discriminate | |];
    apply (execute_command_remove Demo.parse_int Demo.parse_float Demo.XML
             Demo.float_bool Demo.str_float
             (Args.mk false (Some "Dune") true None) (λ _, false) Demo.fs
             "Dune" (Console [] []) [Demo.stored_emma] eq_refl eq_refl);
    discriminate.
Defined.


